(** * Shardman: the shard coordination engine

    A shallow embedding of the request handlers of [shardman/__init__.py]
    ([connect], [beat], [disconnect], [re_register]) together with the
    module-level admission window ([next_halt_time], [left_before_halt]).

    Conventions of the embedding.
    - A [datetime] is an integer number of microseconds since the epoch
      (the resolution of Python's [datetime]); [timedelta s] is [s] seconds.
    - The Mongo collection of [Shard] documents is the list of documents in
      insertion order: [Shard.count()] is its length, [Shard.find_one] returns
      the first match, [insert] appends and [delete] removes the document
      that was found (its position stands for its [_id]).
    - Every handler is run atomically and returns the raised exception or the
      response, paired with the state it leaves behind.
    - [datetime.now] and [ulid.new().str] are inputs of the handlers.
    - The notification sink ([state.send_alert]) is fire-and-forget and is
      not represented. *)

From stdpp Require Import base numbers list list_numbers strings gmap.

Open Scope Z_scope.

(** ** Time *)

Abbreviation datetime := Z.

Definition timedelta (seconds : Z) : Z := seconds * 1000000.

(** ** Exceptions *)

Inductive Raised :=
  | HTTPException (status_code : Z) (detail : string)
  | ValidationError
  | ValueError.

(** Names of the specification for the four HTTP errors of the handlers. *)
Definition FleetFull : Raised := HTTPException 401 "No Shards Available".
Definition SessionNotFound : Raised := HTTPException 404 "Session Not Found".
Definition IdentityNotAvailable : Raised := HTTPException 409 "Shard Not Available".
Definition FleetSizeMismatch : Raised := HTTPException 412 "Max Shards Mismatch".

(** Configuration values of the admission window, as the specification
    names them; [connect] below has them as the literals of the source. *)
Definition bucket_size : Z := 5.
Definition window_length : Z := 5.

Section Shardman.

(** [latency] of a heartbeat is a Python float and [extra] is [Any]; they
    are carried by the request and never inspected, so their types are left
    abstract. *)
Context {Latency Extra : Type}.

(** ** Documents and payloads *)

(** [models.Shard]: the three fields the class declares. *)
Record Shard := mkShard {
  shard_id : Z;
  last_beat : datetime;
  session_id : string;
}.

(** [requests.Heartbeat] *)
Record Heartbeat := mkHeartbeat {
  hb_session_id : string;
  hb_guild_count : option Z;
  hb_latency : option Latency;
  hb_extra : option Extra;
}.

(** [requests.SessionID] *)
Record SessionID := mkSessionID {
  sid_session_id : string;
}.

(** [requests.Register] *)
Record Register := mkRegister {
  reg_shard_id : Z;
  reg_max_shards : Z;
  reg_active : bool;
}.

(** [responses.ConnectConfirmed], with the keyword arguments the handlers
    pass; [sleep_duration] is [0.0] or [5.0], kept as whole seconds. *)
Record ConnectConfirmed := mkConnectConfirmed {
  cc_shard_id : Z;
  cc_max_shards : Z;
  cc_session_id : string;
  cc_sleep_duration : Z;
}.

(** ** Process state *)

(** The [Shard] collection, [state.total_shards] and the two module-level
    globals of the admission window. *)
Record Coordinator := mkCoordinator {
  shards : list Shard;
  total_shards : Z;
  next_halt_time : option datetime;
  left_before_halt : Z;
}.

Definition with_shards (c : Coordinator) (l : list Shard) : Coordinator :=
  mkCoordinator l (total_shards c) (next_halt_time c) (left_before_halt c).

Definition with_window (c : Coordinator) (t : option datetime) (n : Z) : Coordinator :=
  mkCoordinator (shards c) (total_shards c) t n.

(** [Shard.count()] *)
Definition count (c : Coordinator) : Z := Z.of_nat (length (shards c)).

(** [Shard.find_one(Shard.session_id == s)]: position and document. *)
Definition find_one (s : string) (c : Coordinator) : option (nat * Shard) :=
  list_find (λ d, session_id d = s) (shards c).

(** The identities of the live records. *)
Definition live_ids (c : Coordinator) : list Z := shard_id <$> shards c.

(** ** The state manager (state.py) *)

(** Modelled from the spec: [StateManager.get_shard_id] (state.py is not
    among the sources). "Fails with FleetFull if the count of live records
    is >= total_shards. Otherwise scans identities 0..total_shards-1 in
    ascending order and returns the first value not present among live
    records' identity fields." A scan that finds nothing yields [None]. *)
Definition get_shard_id (c : Coordinator) : Raised + option Z :=
  if count c >=? total_shards c then inl FleetFull
  else inr (snd <$> list_find (λ i, i ∉ live_ids c) (seqZ 0 (total_shards c))).

(** Modelled from the spec: [StateManager.get_missing_shards] (state.py is
    not among the sources). "The complement of live identities within
    [0, total_shards)." *)
Definition get_missing_shards (c : Coordinator) : gset Z :=
  list_to_set (seqZ 0 (total_shards c)) ∖ list_to_set (live_ids c).

(** ** Handlers *)

(** [GET /connect] *)
Definition connect (now : datetime) (ulid_new : string) (c : Coordinator)
  : (Raised + ConnectConfirmed) * Coordinator :=
  if count c >=? total_shards c then
    (inl (HTTPException 401 "No Shards Available"), c)
  else
    match get_shard_id c with
    | inl e => (inl e, c)
    | inr shard_id' =>
      let session_id' := ulid_new in
      let last_beat' := now in
      let sleep_duration := 0 in
      (* if not next_halt_time or next_halt_time < last_beat *)
      let '(next_halt_time', left_before_halt') :=
        if match next_halt_time c with
           | None => true
           | Some t => t <? last_beat'
           end
        then (Some (last_beat' + timedelta 5), 5)
        else (next_halt_time c, left_before_halt c) in
      (* if left_before_halt <= 0 *)
      let '(left_before_halt', sleep_duration, last_beat') :=
        if left_before_halt' <=? 0
        then (5, 5, last_beat' + timedelta 5)
        else (left_before_halt', sleep_duration, last_beat') in
      (* left_before_halt -= 1 *)
      let left_before_halt' := left_before_halt' - 1 in
      let c' := with_window c next_halt_time' left_before_halt' in
      match shard_id' with
      | None =>
        (* Shard(shard_id=None, ...): shard_id is declared int *)
        (inl ValidationError, c')
      | Some i =>
        let shard := mkShard i last_beat' session_id' in
        (inr (mkConnectConfirmed i (total_shards c) session_id' sleep_duration),
         with_shards c' (shards c' ++ [shard]))
      end
    end.

(** [POST /beat] *)
Definition beat (now : datetime) (heartbeat : Heartbeat) (c : Coordinator)
  : (Raised + unit) * Coordinator :=
  match find_one (hb_session_id heartbeat) c with
  | None => (inl (HTTPException 404 "Session Not Found"), c)
  | Some (k, shard) =>
    if shard_id shard >=? total_shards c then
      (inl (HTTPException 401 "No Shards Available"), c)
    else
      (* shard.last_beat = now: set on the object that find_one returned *)
      let shard' := mkShard (shard_id shard) now (session_id shard) in
      (* shard.guild_count = heartbeat.guild_count: [Shard] declares no
         field guild_count, the assignment raises; shard.save() is not
         reached and the object [shard'] is dropped *)
      (inl ValueError, c)
  end.

(** [GET /disconnect] *)
Definition disconnect (resp : SessionID) (c : Coordinator)
  : (Raised + unit) * Coordinator :=
  match find_one (sid_session_id resp) c with
  | None => (inl (HTTPException 404 "Session Not Found"), c)
  | Some (k, _) => (inr (), with_shards c (delete k (shards c)))
  end.

(** [GET /re-register] *)
Definition re_register (now : datetime) (ulid_new : string) (payload : Register)
    (c : Coordinator) : (Raised + ConnectConfirmed) * Coordinator :=
  let missing_shards := get_missing_shards c in
  if decide (reg_shard_id payload ∉ missing_shards) then
    (inl (HTTPException 409 "Shard Not Available"), c)
  else if decide (reg_max_shards payload ≠ total_shards c) then
    (inl (HTTPException 412 "Max Shards Mismatch"), c)
  else
    let session_id' := ulid_new in
    let last_beat' := now in
    let shard := mkShard (reg_shard_id payload) last_beat' session_id' in
    (inr (mkConnectConfirmed (reg_shard_id payload) (total_shards c) session_id' 0),
     with_shards c (shards c ++ [shard])).

(** ** Runs of calls *)

(** Successive [connect] calls, each with its arrival time and token. *)
Fixpoint connects (calls : list (datetime * string)) (c : Coordinator)
  : list (Raised + ConnectConfirmed) * Coordinator :=
  match calls with
  | [] => ([], c)
  | (now, tok) :: rest =>
    let '(r, c1) := connect now tok c in
    let '(rs, c2) := connects rest c1 in
    (r :: rs, c2)
  end.


(** ** The admission step in isolation *)

(** Lines 79-89 of [connect] as a function of the arrival time and of the
    window [(next_halt_time, left_before_halt)]: the window left behind, the
    [sleep_duration] and the [last_beat] given to the new record.
    [connect_below_capacity] below shows that [connect] computes exactly this. *)
Definition admission (now : datetime) (w : option datetime * Z)
  : option datetime * Z * Z * datetime :=
  let '(halt, left_) :=
    if match w.1 with None => true | Some t => t <? now end
    then (Some (now + timedelta 5), 5)
    else w in
  let '(left_, sleep_duration, last_beat') :=
    if left_ <=? 0 then (5, 5, now + timedelta 5) else (left_, 0, now) in
  (halt, left_ - 1, sleep_duration, last_beat').

(** No window is active, or the active one ended strictly before [now]. *)
Definition window_over (c : Coordinator) (now : datetime) : Prop :=
  match next_halt_time c with
  | None => True
  | Some t => t < now
  end.

(** The part of a record that a heartbeat must not touch. *)
Definition holder (d : Shard) : Z * string := (shard_id d, session_id d).

(** The [sleep_duration] of an answer, if the call was answered. *)
Definition sleep_of (r : Raised + ConnectConfirmed) : option Z :=
  match r with
  | inl _ => None
  | inr cc => Some (cc_sleep_duration cc)
  end.

(** ** Sample states *)

Definition sample_shard (i : Z) (tok : string) : Shard :=
  mkShard i 0 tok.

(** Live identities 0, 2, 3 out of five; no window yet. *)
Definition fleet_023 : Coordinator :=
  mkCoordinator [sample_shard 0 "A"; sample_shard 2 "B"; sample_shard 3 "C"] 5 None 5.

(** Live identities 0, 1, 3 out of five. *)
Definition fleet_013 : Coordinator :=
  mkCoordinator [sample_shard 0 "A"; sample_shard 1 "B"; sample_shard 3 "C"] 5 None 5.

(** All three identities taken. *)
Definition fleet_full : Coordinator :=
  mkCoordinator [sample_shard 0 "A"; sample_shard 1 "B"; sample_shard 2 "C"] 3 None 5.

(** No record, room for sixteen; the window and the slots as given. *)
Definition idle (halt : option datetime) (n : Z) : Coordinator :=
  mkCoordinator [] 16 halt n.

(** A window that ends at second 10, its bucket used up. *)
Definition used_up : Coordinator := idle (Some (timedelta 10)) 0.

(** Five calls, one per second from second 6 on. *)
Definition burst : list (datetime * string) :=
  [(timedelta 6, "P"); (timedelta 7, "Q"); (timedelta 8, "R");
   (timedelta 9, "S"); (timedelta 10, "T")].

(** The fleet shrank to two while identity 3 was live. *)
Definition fleet_shrunk : Coordinator :=
  mkCoordinator [sample_shard 0 "A"; sample_shard 3 "C"] 2 None 5.

(** ** The state-changing routes as requests *)

(** The four routes that write: [/connect], [/beat], [/disconnect] and
    [/re-register], each with what it reads from the clock, from [ulid] and
    from the request. *)
Inductive Request :=
  | Connect (now : datetime) (ulid_new : string)
  | Beat (now : datetime) (heartbeat : Heartbeat)
  | Disconnect (resp : SessionID)
  | ReRegister (now : datetime) (ulid_new : string) (payload : Register).

(** The state a request leaves behind, whatever the answer. *)
Definition handle (r : Request) (c : Coordinator) : Coordinator :=
  match r with
  | Connect now tok => (connect now tok c).2
  | Beat now hb => (beat now hb c).2
  | Disconnect resp => (disconnect resp c).2
  | ReRegister now tok payload => (re_register now tok payload c).2
  end.

(** Requests served one after the other. *)
Fixpoint serve (rs : list Request) (c : Coordinator) : Coordinator :=
  match rs with
  | [] => c
  | r :: rest => serve rest (handle r c)
  end.

(** The token a request brings along for a record it may create. *)
Definition minted (r : Request) : list string :=
  match r with
  | Connect _ tok | ReRegister _ tok _ => [tok]
  | Beat _ _ | Disconnect _ => []
  end.

(** The session tokens of the live records. *)
Definition tokens (c : Coordinator) : list string := session_id <$> shards c.

(** Live identities are pairwise distinct and within [0, total_shards). *)
Definition identities_ok (c : Coordinator) : Prop :=
  NoDup (live_ids c) ∧ Forall (λ i, 0 ≤ i < total_shards c) (live_ids c).

(** [a] is no later than [b], where [None] (no window yet) is earliest. *)
Definition halt_le (a b : option datetime) : Prop :=
  match a, b with
  | None, _ => True
  | Some _, None => False
  | Some x, Some y => x ≤ y
  end.

(** The identity of an answer, if the call was answered. *)
Definition identity_of (r : Raised + ConnectConfirmed) : option Z :=
  match r with
  | inl _ => None
  | inr cc => Some (cc_shard_id cc)
  end.

(** A morning on [fleet_013]: a shard connects, B beats, A leaves and is
    re-registered as identity 0, and two more shards ask to connect. *)
Definition sample_run : list Request :=
  [Connect (timedelta 1) "D";
   Beat (timedelta 2) (mkHeartbeat "B" (Some 3) None None);
   Disconnect (mkSessionID "A");
   ReRegister (timedelta 3) "E" (mkRegister 0 5 true);
   Connect (timedelta 4) "F";
   Connect (timedelta 5) "G"].

(** * Properties *)

(** ** The identity scan *)

(** Fewer live records than identities: the scan finds a free one. *)
Lemma scan_finds (ids : list Z) (n : Z) :
  Z.of_nat (length ids) < n →
  is_Some (list_find (λ i, i ∉ ids) (seqZ 0 n)).
Proof.
  intros Hlt.
  destruct (list_find _ _) as [p|] eqn:Hfind; [by eexists|].
  exfalso. apply list_find_None in Hfind.
  assert (Hsub : seqZ 0 n ⊆+ ids).
  { apply NoDup_submseteq; [apply NoDup_seqZ|].
    intros x Hx. rewrite Forall_forall in Hfind.
    specialize (Hfind x Hx). by apply dec_stable. }
  apply submseteq_length in Hsub. rewrite length_seqZ in Hsub. lia.
Qed.

(** What the scan returns is in range, free, and below it nothing is free. *)
Lemma scan_lowest (ids : list Z) (n : Z) (k : nat) (i : Z) :
  list_find (λ i, i ∉ ids) (seqZ 0 n) = Some (k, i) →
  0 ≤ i < n ∧ (i ∉ ids) ∧ ∀ j, 0 ≤ j < i → j ∈ ids.
Proof.
  intros (Hk & Hfree & Hbelow)%list_find_Some.
  apply lookup_seqZ in Hk as [-> Hkn].
  split; [lia|]. split; [done|].
  intros j Hj.
  apply dec_stable. apply (Hbelow (Z.to_nat j)); [|lia].
  apply lookup_seqZ. lia.
Qed.

(** ** [connect] *)

Lemma connect_full now tok (c : Coordinator) :
  total_shards c ≤ count c →
  connect now tok c = (inl FleetFull, c).
Proof.
  intros Hfull. unfold connect.
  by rewrite (proj2 (Z.geb_le _ _) Hfull).
Qed.

(** Below capacity [connect] succeeds: it takes the lowest free identity,
    appends one record and moves the window as [admission] says. *)
Lemma connect_below_capacity now tok (c : Coordinator) :
  count c < total_shards c →
  ∃ i, get_shard_id c = inr (Some i)
    ∧ (0 ≤ i < total_shards c ∧ (i ∉ live_ids c) ∧ ∀ j, 0 ≤ j < i → j ∈ live_ids c)
    ∧ ∀ halt n sleep_duration beat_time,
        admission now (next_halt_time c, left_before_halt c)
          = (halt, n, sleep_duration, beat_time) →
        connect now tok c =
          (inr (mkConnectConfirmed i (total_shards c) tok sleep_duration),
           mkCoordinator (shards c ++ [mkShard i beat_time tok])
                         (total_shards c) halt n).
Proof.
  intros Hlt.
  assert (Hgeb : (count c >=? total_shards c) = false).
  { rewrite Z.geb_leb. apply Z.leb_gt. lia. }
  destruct (scan_finds (live_ids c) (total_shards c)) as [[k i] Hfind].
  { unfold live_ids. rewrite length_fmap. exact Hlt. }
  exists i.
  assert (Hid : get_shard_id c = inr (Some i)).
  { unfold get_shard_id. by rewrite Hgeb, Hfind. }
  split; [done|]. split; [by eapply scan_lowest|].
  intros halt n sl bt. unfold connect, admission. rewrite Hgeb, Hid. simpl.
  destruct (match next_halt_time c with None => true | Some t => t <? now end);
    [simpl | destruct (left_before_halt c <=? 0)];
    intros [= <- <- <- <-]; reflexivity.
Qed.

(** ** The three cases of the admission step *)

Lemma admission_open now halt n :
  match halt with None => True | Some t => t < now end →
  admission now (halt, n) = (Some (now + timedelta 5), 4, 0, now).
Proof.
  intros Hover. unfold admission. simpl.
  destruct halt as [t|]; [|done].
  by rewrite (proj2 (Z.ltb_lt _ _) Hover).
Qed.

Lemma admission_slot now e n :
  now ≤ e → 0 < n →
  admission now (Some e, n) = (Some e, n - 1, 0, now).
Proof.
  intros Hin Hn. unfold admission. simpl.
  rewrite (proj2 (Z.ltb_ge _ _) Hin).
  by rewrite (proj2 (Z.leb_gt _ _) Hn).
Qed.

Lemma admission_throttled now e n :
  now ≤ e → n ≤ 0 →
  admission now (Some e, n) = (Some e, 4, 5, now + timedelta 5).
Proof.
  intros Hin Hn. unfold admission. simpl.
  rewrite (proj2 (Z.ltb_ge _ _) Hin).
  by rewrite (proj2 (Z.leb_le _ _) Hn).
Qed.

(** ** Runs of [connect] *)

Lemma connects_app calls1 calls2 (c : Coordinator) :
  connects (calls1 ++ calls2) c =
    (let '(rs1, c1) := connects calls1 c in
     let '(rs2, c2) := connects calls2 c1 in
     (rs1 ++ rs2, c2)).
Proof.
  revert c. induction calls1 as [|[now tok] calls1 IH]; intros c; simpl.
  - by destruct (connects calls2 c).
  - destruct (connect now tok c) as [r c1]. rewrite IH.
    destruct (connects calls1 c1) as [rs1 c2].
    by destruct (connects calls2 c2).
Qed.

(** While the window is active and slots remain, every call is admitted at
    once and takes one slot. *)
Lemma connects_in_window calls : ∀ (c : Coordinator) e,
  next_halt_time c = Some e →
  Forall (λ call, call.1 ≤ e) calls →
  Z.of_nat (length calls) ≤ left_before_halt c →
  count c + Z.of_nat (length calls) ≤ total_shards c →
  ∃ oks c',
    connects calls c = (inr <$> oks, c')
    ∧ length oks = length calls
    ∧ Forall (λ cc, cc_sleep_duration cc = 0) oks
    ∧ next_halt_time c' = Some e
    ∧ left_before_halt c' = left_before_halt c - Z.of_nat (length calls)
    ∧ total_shards c' = total_shards c
    ∧ count c' = count c + Z.of_nat (length calls).
Proof.
  induction calls as [|[now tok] calls IH]; intros c e Hhalt Hin Hleft Hroom.
  - exists [], c. simpl. repeat split; try done; lia.
  - apply Forall_cons in Hin as [Hnow Hin]. simpl in Hnow, Hleft, Hroom.
    destruct (connect_below_capacity now tok c) as (i & _ & _ & Hconn); [lia|].
    specialize (Hconn _ _ _ _
      ltac:(rewrite Hhalt; apply admission_slot; [exact Hnow | lia])).
    simpl. rewrite Hconn.
    set (c1 := mkCoordinator _ _ _ _).
    destruct (IH c1 e) as (oks & c' & Hrun & Hlen & Hzero & Hh & Hl & Ht & Hc);
      [done | done | simpl; lia | |].
    { unfold count, c1. simpl. rewrite length_app. simpl.
      unfold count in Hroom. lia. }
    rewrite Hrun.
    eexists (_ :: oks), c'. split; [reflexivity|].
    split; [simpl; by rewrite Hlen|].
    split; [by constructor|].
    split; [done|].
    split; [rewrite Hl; simpl; lia|].
    split; [by rewrite Ht|].
    rewrite Hc. unfold count, c1. simpl. rewrite length_app. simpl. lia.
Qed.

(** ** Claims on [connect] *)

(** C1. A [connect] call fails with FleetFull (401, No Shards Available),
    leaving the records and the window as they were, when the count of live
    records is at least [total_shards]; when the count is below
    [total_shards] it does not fail with FleetFull. *)
Theorem connect_fleet_full now tok (c : Coordinator) :
  (total_shards c ≤ count c → connect now tok c = (inl FleetFull, c))
  ∧ (count c < total_shards c → (connect now tok c).1 ≠ inl FleetFull).
Proof.
  split; [apply connect_full|].
  intros Hlt.
  destruct (connect_below_capacity now tok c Hlt) as (i & _ & _ & Hconn).
  destruct (admission now (next_halt_time c, left_before_halt c))
    as [[[halt n] sl] bt] eqn:Hadm.
  by rewrite (Hconn _ _ _ _ eq_refl).
Qed.

(** C2. With fewer live records than [total_shards], the identity that a
    successful allocation returns ([get_shard_id], and [connect] through it)
    is the smallest integer of [0, total_shards) that is not the identity of
    a live record; the new record carries it. *)
Theorem connect_lowest_free now tok (c : Coordinator) :
  count c < total_shards c →
  ∃ cc c',
    connect now tok c = (inr cc, c')
    ∧ get_shard_id c = inr (Some (cc_shard_id cc))
    ∧ 0 ≤ cc_shard_id cc < total_shards c
    ∧ (cc_shard_id cc ∉ live_ids c)
    ∧ (∀ j, 0 ≤ j < cc_shard_id cc → j ∈ live_ids c)
    ∧ live_ids c' = live_ids c ++ [cc_shard_id cc].
Proof.
  intros Hlt.
  destruct (connect_below_capacity now tok c Hlt) as (i & Hid & (Hrange & Hfree & Hlow) & Hconn).
  destruct (admission now (next_halt_time c, left_before_halt c))
    as [[[halt n] sl] bt] eqn:Hadm.
  specialize (Hconn _ _ _ _ eq_refl).
  eexists _, _. split; [exact Hconn|]. simpl.
  repeat split; try done; try lia.
  unfold live_ids. simpl. by rewrite fmap_app.
Qed.

(** C3. Six [connect] calls of one admission window (the first opens it,
    the others arrive no later than its end, and identities remain): the
    first [bucket_size] = 5 of them get [sleep_duration] 0, the sixth gets
    [sleep_duration] = [window_length] and its record is stamped
    [window_length] seconds after its arrival. *)
Theorem sixth_call_waits (c : Coordinator) t1 tok1 within t6 tok6 :
  window_over c t1 →
  length within = 4%nat →
  Forall (λ call : datetime * string, call.1 ≤ t1 + timedelta window_length) within →
  t6 ≤ t1 + timedelta window_length →
  count c + 6 ≤ total_shards c →
  ∃ oks cc6 d6 c',
    connects ((t1, tok1) :: within ++ [(t6, tok6)]) c = ((inr <$> oks) ++ [inr cc6], c')
    ∧ Z.of_nat (length oks) = bucket_size
    ∧ Forall (λ cc, cc_sleep_duration cc = 0) oks
    ∧ cc_sleep_duration cc6 = window_length
    ∧ last (shards c') = Some d6
    ∧ session_id d6 = tok6
    ∧ shard_id d6 = cc_shard_id cc6
    ∧ last_beat d6 = t6 + timedelta window_length.
Proof.
  intros Hover Hlen Hin H6 Hroom. unfold window_length in *.
  destruct (connect_below_capacity t1 tok1 c) as (i1 & _ & _ & Hc1); [lia|].
  specialize (Hc1 _ _ _ _ (admission_open t1 _ _ Hover)).
  set (c1 := mkCoordinator _ _ _ _) in Hc1.
  assert (Hcount1 : count c1 = count c + 1).
  { unfold count, c1. simpl. rewrite length_app. simpl. lia. }
  destruct (connects_in_window within c1 (t1 + timedelta 5))
    as (oks & c5 & Hrun & Hoks & Hzero & Hhalt & Hleft & Htot & Hcount5);
    [done | done | rewrite Hlen; simpl; lia
     | rewrite Hcount1, Hlen; simpl; lia |].
  simpl in Hleft, Htot.
  destruct (connect_below_capacity t6 tok6 c5) as (i6 & _ & _ & Hc6); [lia|].
  specialize (Hc6 (Some (t1 + timedelta 5)) 4 5 (t6 + timedelta 5)).
  rewrite Hhalt in Hc6.
  specialize (Hc6 ltac:(apply admission_throttled; [exact H6 | lia])).
  change ((t1, tok1) :: within ++ [(t6, tok6)])
    with ([(t1, tok1)] ++ (within ++ [(t6, tok6)])).
  rewrite connects_app. simpl. rewrite Hc1.
  rewrite connects_app, Hrun. simpl. rewrite Hc6.
  eexists (_ :: oks), _, _, _. split; [reflexivity|].
  split; [simpl; unfold bucket_size; lia|].
  split; [by constructor|].
  split; [done|].
  split; [apply last_snoc|]. done.
Qed.

(** C4, as the code has it. A throttled call (active window, no slot left)
    refills the bucket and takes one slot of the refill for itself: it
    returns [sleep_duration] = [window_length], leaves
    [bucket_size - 1] slots and the window end as it was, and the next
    [bucket_size - 1] calls of the same window get [sleep_duration] 0 and
    use the bucket up. *)
Theorem throttled_call_takes_slot (c : Coordinator) e now tok calls :
  next_halt_time c = Some e →
  now ≤ e →
  left_before_halt c ≤ 0 →
  Z.of_nat (length calls) = bucket_size - 1 →
  Forall (λ call : datetime * string, call.1 ≤ e) calls →
  count c + bucket_size ≤ total_shards c →
  ∃ cc c1 oks c2,
    connect now tok c = (inr cc, c1)
    ∧ cc_sleep_duration cc = window_length
    ∧ left_before_halt c1 = bucket_size - 1
    ∧ next_halt_time c1 = Some e
    ∧ connects calls c1 = (inr <$> oks, c2)
    ∧ length oks = length calls
    ∧ Forall (λ cc, cc_sleep_duration cc = 0) oks
    ∧ left_before_halt c2 = 0.
Proof.
  unfold bucket_size, window_length.
  intros Hhalt Hnow Hleft Hlen Hin Hroom.
  destruct (connect_below_capacity now tok c) as (i & _ & _ & Hconn); [lia|].
  specialize (Hconn (Some e) 4 5 (now + timedelta 5)).
  rewrite Hhalt in Hconn.
  specialize (Hconn (admission_throttled now e _ Hnow Hleft)).
  set (c1 := mkCoordinator _ _ _ _) in Hconn.
  destruct (connects_in_window calls c1 e)
    as (oks & c2 & Hrun & Hoks & Hzero & _ & Hl & _ & _);
    [done | done | simpl; lia | |].
  { unfold count, c1. simpl. rewrite length_app. simpl.
    unfold count in Hroom. lia. }
  exists (mkConnectConfirmed i (total_shards c) tok 5), c1, oks, c2.
  repeat split; try done. rewrite Hl. simpl. lia.
Qed.

(** C5, as the code has it. When no window is active or the current time is
    strictly after the window's end, [connect] starts a new window ending
    [window_length] seconds from now with a full bucket, of which this call
    takes one slot; the call gets [sleep_duration] 0 and its record is
    stamped with the arrival time. A call that arrives at the window's end
    exactly, or before it, stays in the old window: the end is not moved
    and the call takes a slot of the old bucket, or is throttled if none is
    left. *)
Theorem new_window_when_over (c : Coordinator) now tok :
  count c < total_shards c →
  (window_over c now →
     ∃ cc d c',
       connect now tok c = (inr cc, c')
       ∧ cc_sleep_duration cc = 0
       ∧ next_halt_time c' = Some (now + timedelta window_length)
       ∧ left_before_halt c' = bucket_size - 1
       ∧ last (shards c') = Some d
       ∧ session_id d = tok
       ∧ last_beat d = now)
  ∧ (∀ e, next_halt_time c = Some e → now ≤ e →
     ∃ cc c',
       connect now tok c = (inr cc, c')
       ∧ next_halt_time c' = Some e
       ∧ (0 < left_before_halt c →
            cc_sleep_duration cc = 0
            ∧ left_before_halt c' = left_before_halt c - 1)
       ∧ (left_before_halt c ≤ 0 →
            cc_sleep_duration cc = window_length
            ∧ left_before_halt c' = bucket_size - 1)).
Proof.
  intros Hlt.
  destruct (connect_below_capacity now tok c Hlt) as (i & _ & _ & Hconn).
  split.
  - intros Hover.
    specialize (Hconn _ _ _ _ (admission_open now _ _ Hover)).
    eexists _, _, _. split; [exact Hconn|]. simpl.
    do 3 (split; [done|]). split; [apply last_snoc|]. done.
  - intros e Hhalt Hnow. rewrite Hhalt in Hconn.
    destruct (decide (0 < left_before_halt c)) as [Hn|Hn].
    + specialize (Hconn _ _ _ _ (admission_slot now e _ Hnow Hn)).
      eexists _, _. split; [exact Hconn|]. simpl.
      split; [done|]. split; [done|]. lia.
    + assert (Hn' : left_before_halt c ≤ 0) by lia.
      specialize (Hconn _ _ _ _ (admission_throttled now e _ Hnow Hn')).
      eexists _, _. split; [exact Hconn|]. simpl.
      split; [done|]. split; [lia|]. done.
Qed.

(** ** Claims on [re_register] *)

Lemma elem_of_missing (c : Coordinator) i :
  i ∈ get_missing_shards c ↔ 0 ≤ i < total_shards c ∧ i ∉ live_ids c.
Proof.
  unfold get_missing_shards.
  rewrite elem_of_difference, !elem_of_list_to_set, elem_of_seqZ.
  intuition lia.
Qed.

(** C6. [re_register] checks its rules in order: an identity outside the
    missing identities (in particular a live one) is answered with
    IdentityNotAvailable whatever the claimed total is; a missing identity
    with a claimed total other than [total_shards] is answered with
    FleetSizeMismatch; otherwise the call succeeds. A rejected call changes
    nothing. *)
Theorem re_register_rules now tok (payload : Register) (c : Coordinator) :
  (reg_shard_id payload ∉ get_missing_shards c →
     re_register now tok payload c = (inl IdentityNotAvailable, c))
  ∧ (reg_shard_id payload ∈ live_ids c →
     re_register now tok payload c = (inl IdentityNotAvailable, c))
  ∧ (reg_shard_id payload ∈ get_missing_shards c →
     reg_max_shards payload ≠ total_shards c →
     re_register now tok payload c = (inl FleetSizeMismatch, c))
  ∧ (reg_shard_id payload ∈ get_missing_shards c →
     reg_max_shards payload = total_shards c →
     ∃ cc c', re_register now tok payload c = (inr cc, c')).
Proof.
  assert (Hout : reg_shard_id payload ∉ get_missing_shards c →
            re_register now tok payload c = (inl IdentityNotAvailable, c)).
  { intros Hnot. unfold re_register. by rewrite decide_True. }
  split; [exact Hout|]. split.
  { intros Hlive. apply Hout. rewrite elem_of_missing. tauto. }
  split.
  - intros Hin Hne. unfold re_register.
    rewrite decide_False by (intros Hnot; by apply Hnot).
    by rewrite decide_True.
  - intros Hin Heq. unfold re_register.
    rewrite decide_False by (intros Hnot; by apply Hnot).
    rewrite decide_False by (intros Hne; by apply Hne).
    by eexists _, _.
Qed.

(** C7. A successful [re_register] appends a fresh record at the requested
    identity, with the newly minted token and [last_beat] = now, answers
    with [sleep_duration] 0, and leaves [next_halt_time] and
    [left_before_halt] (and [total_shards]) exactly as they were. *)
Theorem re_register_fresh_record now tok (payload : Register) (c : Coordinator) :
  reg_shard_id payload ∈ get_missing_shards c →
  reg_max_shards payload = total_shards c →
  re_register now tok payload c =
    (inr (mkConnectConfirmed (reg_shard_id payload) (total_shards c) tok 0),
     mkCoordinator
       (shards c ++ [mkShard (reg_shard_id payload) now tok])
       (total_shards c) (next_halt_time c) (left_before_halt c)).
Proof.
  intros Hin Heq. unfold re_register.
  rewrite decide_False by (intros Hnot; by apply Hnot).
  by rewrite decide_False by (intros Hne; by apply Hne).
Qed.

(** ** Claims on [beat] and [disconnect] *)

Lemma find_one_unknown t (c : Coordinator) :
  (∀ d, d ∈ shards c → session_id d ≠ t) → find_one t c = None.
Proof.
  intros Hnone. unfold find_one. apply list_find_None.
  apply Forall_forall. exact Hnone.
Qed.

(** C8. For a token that no live record carries, [beat] and [disconnect]
    both fail with SessionNotFound (404) and leave the state, hence the set
    of live records, as it was. *)
Theorem unknown_session_not_found now (heartbeat : Heartbeat) (c : Coordinator) :
  (∀ d, d ∈ shards c → session_id d ≠ hb_session_id heartbeat) →
  beat now heartbeat c = (inl SessionNotFound, c)
  ∧ disconnect (mkSessionID (hb_session_id heartbeat)) c = (inl SessionNotFound, c).
Proof.
  intros Hnone. unfold beat, disconnect. simpl.
  by rewrite (find_one_unknown _ _ Hnone).
Qed.

(** No path of [beat] writes: the two HTTP errors are raised before any
    assignment, and the assignment of [guild_count] raises before
    [shard.save()]. *)
Lemma beat_writes_nothing now (heartbeat : Heartbeat) (c : Coordinator) :
  (beat now heartbeat c).2 = c.
Proof.
  unfold beat. destruct (find_one _ c) as [[k d]|]; [|done].
  by destruct (shard_id d >=? total_shards c).
Qed.

(** One [beat], whatever its answer: every record keeps its identity and
    its token, records of other sessions are untouched, and so are the
    fleet size and the window. *)
Lemma beat_frame now (heartbeat : Heartbeat) (c : Coordinator) :
  holder <$> shards (beat now heartbeat c).2 = holder <$> shards c
  ∧ (∀ k d, shards c !! k = Some d →
       session_id d ≠ hb_session_id heartbeat →
       shards (beat now heartbeat c).2 !! k = Some d)
  ∧ total_shards (beat now heartbeat c).2 = total_shards c
  ∧ next_halt_time (beat now heartbeat c).2 = next_halt_time c
  ∧ left_before_halt (beat now heartbeat c).2 = left_before_halt c.
Proof. by rewrite beat_writes_nothing. Qed.


(** With pairwise distinct tokens, the record found for a live record's
    token is that record. *)
Lemma find_one_live (c : Coordinator) d :
  NoDup (session_id <$> shards c) →
  d ∈ shards c →
  ∃ k, find_one (session_id d) c = Some (k, d).
Proof.
  intros Hnodup Hd. unfold find_one.
  destruct (list_find_elem_of (λ x, session_id x = session_id d) (shards c) d)
    as [[k d'] Hfind]; [done | done |].
  exists k. rewrite Hfind. do 2 f_equal.
  apply list_find_Some in Hfind as (Hk & Htok & _).
  apply list_elem_of_lookup in Hd as [k0 Hk0].
  assert (k = k0) as ->.
  { eapply (proj1 (NoDup_alt _) Hnodup); rewrite list_lookup_fmap.
    - rewrite Hk. simpl. by rewrite Htok.
    - by rewrite Hk0. }
  congruence.
Qed.

(** C10. A heartbeat for a live record whose identity is at or above
    [total_shards] fails with 401 No Shards Available; nothing is written,
    so the record keeps its old [last_beat]. *)
Theorem beat_out_of_range now (heartbeat : Heartbeat) (c : Coordinator) d :
  NoDup (session_id <$> shards c) →
  d ∈ shards c →
  total_shards c ≤ shard_id d →
  hb_session_id heartbeat = session_id d →
  beat now heartbeat c = (inl (HTTPException 401 "No Shards Available"), c).
Proof.
  intros Hnodup Hd Hout Htok.
  destruct (find_one_live c d Hnodup Hd) as [k Hfind].
  unfold beat. rewrite Htok, Hfind.
  by rewrite (proj2 (Z.geb_le _ _) Hout).
Qed.

(** * Further properties of the handlers *)

(** ** How one request changes the records *)

Lemma holder_ids (l l' : list Shard) :
  holder <$> l' = holder <$> l → shard_id <$> l' = shard_id <$> l.
Proof.
  intros Hh.
  change (shard_id <$> l') with ((fst ∘ holder) <$> l').
  change (shard_id <$> l) with ((fst ∘ holder) <$> l).
  by rewrite !list_fmap_compose, Hh.
Qed.

Lemma holder_tokens (l l' : list Shard) :
  holder <$> l' = holder <$> l → session_id <$> l' = session_id <$> l.
Proof.
  intros Hh.
  change (session_id <$> l') with ((snd ∘ holder) <$> l').
  change (session_id <$> l) with ((snd ∘ holder) <$> l).
  by rewrite !list_fmap_compose, Hh.
Qed.

(** A request leaves [total_shards] alone and does one of three things to
    the records: it keeps identity and token of each, it appends one record
    with a free identity in range and the minted token, or it deletes one. *)
Lemma handle_shape r (c : Coordinator) :
  total_shards (handle r c) = total_shards c
  ∧ (holder <$> shards (handle r c) = holder <$> shards c
     ∨ (∃ d, shards (handle r c) = shards c ++ [d]
           ∧ 0 ≤ shard_id d < total_shards c
           ∧ (shard_id d ∉ live_ids c)
           ∧ minted r = [session_id d])
     ∨ (∃ k, shards (handle r c) = delete k (shards c))).
Proof.
  destruct r as [now tok | now hb | resp | now tok payload]; simpl.
  - destruct (decide (count c < total_shards c)) as [Hlt|Hfull].
    + destruct (connect_below_capacity now tok c Hlt)
        as (i & _ & (Hrange & Hfree & _) & Hconn).
      destruct (admission now (next_halt_time c, left_before_halt c))
        as [[[halt n] sl] bt] eqn:Hadm.
      rewrite (Hconn _ _ _ _ eq_refl). simpl.
      split; [done|]. right. left. by eexists.
    + rewrite connect_full by lia. simpl. by split; [|left].
  - destruct (beat_frame now hb c) as (Hh & _ & Ht & _).
    by split; [|left].
  - unfold disconnect. destruct (find_one _ c) as [[k d]|]; simpl.
    + split; [done|]. right. right. by exists k.
    + by split; [|left].
  - unfold re_register.
    destruct (decide (reg_shard_id payload ∉ get_missing_shards c)) as [|Hin];
      [by split; [|left]|].
    destruct (decide (reg_max_shards payload ≠ total_shards c));
      [by split; [|left]|].
    simpl. split; [done|]. right. left. eexists. split; [done|]. simpl.
    apply dec_stable in Hin. apply elem_of_missing in Hin as [? ?]. done.
Qed.

Lemma handle_keeps_identities r (c : Coordinator) :
  identities_ok c → identities_ok (handle r c).
Proof.
  intros [Hnodup Hrange]. unfold identities_ok, live_ids in *.
  destruct (handle_shape r c) as (-> & [Hh | [(d & -> & Hd & Hfree & _) | (k & ->)]]).
  - by rewrite (holder_ids _ _ Hh).
  - rewrite fmap_app. simpl. split.
    + apply NoDup_app. split; [done|]. split; [|apply NoDup_singleton].
      intros x Hx ->%list_elem_of_singleton. by apply Hfree.
    + apply Forall_app. split; [done|]. by constructor.
  - rewrite list_fmap_delete. split.
    + eapply sublist_NoDup; [exact Hnodup | apply sublist_delete].
    + by apply Forall_delete.
Qed.

Lemma serve_total_shards rs : ∀ c : Coordinator,
  total_shards (serve rs c) = total_shards c.
Proof.
  induction rs as [|r rs IH]; intros c; simpl; [done|].
  rewrite IH. apply handle_shape.
Qed.

Lemma serve_identities rs : ∀ c : Coordinator,
  identities_ok c → identities_ok (serve rs c).
Proof.
  induction rs as [|r rs IH]; intros c Hok; simpl; [done|].
  by apply IH, handle_keeps_identities.
Qed.

(** Distinct identities in range are no more than [total_shards]. *)
Lemma identities_ok_count (c : Coordinator) :
  0 ≤ total_shards c → identities_ok c → count c ≤ total_shards c.
Proof.
  intros Hpos [Hnodup Hrange].
  assert (Hsub : live_ids c ⊆+ seqZ 0 (total_shards c)).
  { apply NoDup_submseteq; [done|]. intros x Hx.
    rewrite Forall_forall in Hrange. apply elem_of_seqZ.
    specialize (Hrange x Hx). lia. }
  apply submseteq_length in Hsub.
  unfold live_ids in Hsub. rewrite length_fmap, length_seqZ in Hsub.
  unfold count. lia.
Qed.

(** X1. Whatever requests are served, the live identities stay pairwise
    distinct and within [0, total_shards). *)
Theorem serve_keeps_identities rs (c : Coordinator) :
  NoDup (live_ids c) →
  Forall (λ i, 0 ≤ i < total_shards c) (live_ids c) →
  NoDup (live_ids (serve rs c))
  ∧ Forall (λ i, 0 ≤ i < total_shards c) (live_ids (serve rs c)).
Proof.
  intros Hnodup Hrange.
  destruct (serve_identities rs c (conj Hnodup Hrange)) as [Hn Hr].
  by rewrite serve_total_shards in Hr.
Qed.

(** X2. The fleet is never overfilled: from a state with distinct
    identities in range, no sequence of requests (re-registrations, which
    do not look at the count, included) leaves more than [total_shards]
    records. *)
Theorem serve_never_overfills rs (c : Coordinator) :
  0 ≤ total_shards c →
  NoDup (live_ids c) →
  Forall (λ i, 0 ≤ i < total_shards c) (live_ids c) →
  count (serve rs c) ≤ total_shards c.
Proof.
  intros Hpos Hnodup Hrange.
  rewrite <-(serve_total_shards rs c).
  apply identities_ok_count; [by rewrite serve_total_shards|].
  apply serve_identities. by split.
Qed.

(** ** Session tokens *)

Lemma handle_tokens_sublist r (c : Coordinator) :
  tokens (handle r c) `sublist_of` tokens c ++ minted r.
Proof.
  unfold tokens.
  destruct (handle_shape r c) as (_ & [Hh | [(d & -> & _ & _ & ->) | (k & ->)]]).
  - rewrite (holder_tokens _ _ Hh). by apply sublist_inserts_r.
  - by rewrite fmap_app.
  - rewrite list_fmap_delete. apply sublist_inserts_r, sublist_delete.
Qed.

(** X3. Session tokens stay pairwise distinct as long as [ulid] delivers
    tokens that are new: distinct from each other and from the tokens of
    the records the run starts with. *)
Theorem serve_keeps_tokens_unique rs : ∀ c : Coordinator,
  NoDup (tokens c ++ (rs ≫= minted)) →
  NoDup (tokens (serve rs c)).
Proof.
  induction rs as [|r rs IH]; intros c Hnodup; simpl in *.
  - by rewrite app_nil_r in Hnodup.
  - apply IH. eapply sublist_NoDup; [exact Hnodup|].
    rewrite app_assoc. apply sublist_app; [|done].
    apply handle_tokens_sublist.
Qed.

(** ** Bursts of [connect] *)

(** X4. In a run of [connect] calls the answered calls get pairwise
    distinct identities, none of which was live before, and exactly these
    identities are added to the live ones. *)
Theorem connects_distinct_identities calls : ∀ c : Coordinator,
  NoDup (live_ids c) →
  live_ids (connects calls c).2 = live_ids c ++ omap identity_of (connects calls c).1
  ∧ NoDup (live_ids c ++ omap identity_of (connects calls c).1).
Proof.
  induction calls as [|[now tok] calls IH]; intros c Hnodup; simpl.
  - by rewrite app_nil_r.
  - destruct (decide (count c < total_shards c)) as [Hlt|Hfull].
    + destruct (connect_below_capacity now tok c Hlt)
        as (i & _ & (_ & Hfree & _) & Hconn).
      destruct (admission now (next_halt_time c, left_before_halt c))
        as [[[halt n] sl] bt] eqn:Hadm.
      rewrite (Hconn _ _ _ _ eq_refl).
      set (c1 := mkCoordinator _ _ _ _).
      assert (Hids : live_ids c1 = live_ids c ++ [i]).
      { unfold live_ids, c1. simpl. by rewrite fmap_app. }
      destruct (IH c1) as [Hlive Hnd].
      { rewrite Hids. apply NoDup_app. split; [done|].
        split; [|apply NoDup_singleton].
        intros x Hx ->%list_elem_of_singleton. by apply Hfree. }
      destruct (connects calls c1) as [rs c2]. simpl in *.
      rewrite Hids, <-app_assoc in Hlive, Hnd. done.
    + rewrite connect_full by lia.
      destruct (IH c Hnodup) as [Hlive Hnd].
      destruct (connects calls c) as [rs c2]. done.
Qed.

(** ** [disconnect] *)

Lemma find_snoc (l : list Shard) d :
  session_id d ∉ session_id <$> l →
  list_find (λ x, session_id x = session_id d) (l ++ [d]) = Some (length l, d).
Proof.
  intros Hfresh. rewrite list_find_app_r.
  - simpl. by rewrite decide_True.
  - apply list_find_None, Forall_forall. intros x Hx Heq.
    apply Hfresh. rewrite <-Heq. by apply list_elem_of_fmap_2.
Qed.

Lemma NoDup_delete_lookup {A} (l : list A) k x :
  NoDup l → l !! k = Some x → x ∉ delete k l.
Proof.
  intros Hnodup Hk.
  rewrite <-(take_drop_middle l k x Hk) in Hnodup.
  apply NoDup_app in Hnodup as (_ & Hleft & Hright).
  apply NoDup_cons in Hright as [Hright _].
  rewrite delete_take_drop. intros [Hin|Hin]%elem_of_app; [|done].
  apply (Hleft x Hin). by left.
Qed.

(** What a successful [disconnect] of a live record does, tokens being
    pairwise distinct. *)
Lemma disconnect_live (c : Coordinator) d :
  NoDup (tokens c) →
  d ∈ shards c →
  ∃ k, shards c !! k = Some d
     ∧ disconnect (mkSessionID (session_id d)) c
         = (inr (), with_shards c (delete k (shards c))).
Proof.
  intros Hnodup Hd.
  destruct (find_one_live c d Hnodup Hd) as [k Hfind].
  exists k. split.
  - by apply list_find_Some in Hfind as (? & _).
  - unfold disconnect. simpl. by rewrite Hfind.
Qed.

(** X5. Connecting and then disconnecting with the token just received
    gives back the records as they were: the same documents in the same
    order. The token must be new. *)
Theorem connect_then_disconnect now tok (c : Coordinator) :
  count c < total_shards c →
  tok ∉ tokens c →
  (disconnect (mkSessionID tok) (connect now tok c).2).1 = inr ()
  ∧ shards (disconnect (mkSessionID tok) (connect now tok c).2).2 = shards c.
Proof.
  intros Hlt Hfresh.
  destruct (connect_below_capacity now tok c Hlt) as (i & _ & _ & Hconn).
  destruct (admission now (next_halt_time c, left_before_halt c))
    as [[[halt n] sl] bt] eqn:Hadm.
  rewrite (Hconn _ _ _ _ eq_refl). unfold disconnect, find_one. simpl.
  pose proof (find_snoc (shards c) (mkShard i bt tok) Hfresh)
    as Hfind.
  simpl in Hfind. rewrite Hfind. simpl. split; [done|].
  by rewrite (delete_middle (shards c) []), app_nil_r.
Qed.

(** X6. A disconnect frees the identity: with distinct tokens and distinct
    identities, once a record with an identity in range is disconnected,
    that identity is missing and [re_register] for it with the right total
    succeeds. *)
Theorem disconnect_frees_identity now tok active (c : Coordinator) d :
  NoDup (tokens c) →
  NoDup (live_ids c) →
  d ∈ shards c →
  0 ≤ shard_id d < total_shards c →
  (disconnect (mkSessionID (session_id d)) c).1 = inr ()
  ∧ shard_id d ∈ get_missing_shards (disconnect (mkSessionID (session_id d)) c).2
  ∧ (re_register now tok (mkRegister (shard_id d) (total_shards c) active)
       (disconnect (mkSessionID (session_id d)) c).2).1
      = inr (mkConnectConfirmed (shard_id d) (total_shards c) tok 0).
Proof.
  intros Htok Hids Hd Hrange.
  destruct (disconnect_live c d Htok Hd) as (k & Hk & ->). simpl.
  split; [done|].
  assert (Hmissing : shard_id d ∈ get_missing_shards (with_shards c (delete k (shards c)))).
  { apply elem_of_missing. split; [done|].
    unfold live_ids. simpl. rewrite list_fmap_delete.
    apply NoDup_delete_lookup; [done|].
    by rewrite list_lookup_fmap, Hk. }
  split; [done|]. unfold re_register. simpl.
  rewrite decide_False by (intros Hnot; by apply Hnot).
  by rewrite decide_False by (intros Hne; by apply Hne).
Qed.

(** The tokens live after a run were live before or were minted in it. *)
Lemma serve_tokens rs : ∀ (c : Coordinator) t,
  t ∈ tokens (serve rs c) → t ∈ tokens c ∨ t ∈ rs ≫= minted.
Proof.
  induction rs as [|r rs IH]; intros c t Ht; simpl in *; [by left|].
  destruct (IH _ _ Ht) as [Hin | Hin].
  - eapply elem_of_sublist in Hin; [|apply handle_tokens_sublist].
    apply elem_of_app in Hin as [?|?]; [by left|].
    right. apply elem_of_app. by left.
  - right. apply elem_of_app. by right.
Qed.

(** X7. A disconnect is final for its token: with distinct tokens, after a
    record is disconnected and whatever requests are served next, as long
    as none of them mints that token again, every heartbeat and every
    further disconnect with the token is answered 404 Session Not Found. *)
Theorem disconnect_is_final now (heartbeat : Heartbeat) (c : Coordinator) d rs :
  NoDup (tokens c) →
  d ∈ shards c →
  hb_session_id heartbeat = session_id d →
  session_id d ∉ rs ≫= minted →
  (disconnect (mkSessionID (session_id d)) c).1 = inr ()
  ∧ (beat now heartbeat
       (serve rs (disconnect (mkSessionID (session_id d)) c).2)).1
      = inl SessionNotFound
  ∧ (disconnect (mkSessionID (session_id d))
       (serve rs (disconnect (mkSessionID (session_id d)) c).2)).1
      = inl SessionNotFound.
Proof.
  intros Htok Hd Hhb Hmint.
  destruct (disconnect_live c d Htok Hd) as (k & Hk & ->). simpl.
  split; [done|].
  set (c1 := with_shards c (delete k (shards c))).
  assert (Hgone : find_one (session_id d) (serve rs c1) = None).
  { apply find_one_unknown. intros x Hx Heq.
    destruct (serve_tokens rs c1 (session_id d)) as [Hin | Hin]; [| |done].
    - rewrite <-Heq. unfold tokens. by apply list_elem_of_fmap_2.
    - apply (NoDup_delete_lookup (tokens c) k (session_id d)); [done | |].
      + unfold tokens. by rewrite list_lookup_fmap, Hk.
      + unfold tokens, c1 in *. simpl in Hin. by rewrite <-list_fmap_delete. }
  unfold beat, disconnect. simpl. by rewrite Hhb, Hgone.
Qed.

(** ** Heartbeats and the records *)

(** X8. A heartbeat for a live record with an identity below
    [total_shards] is not answered 204: the assignment of [guild_count] on
    line 122 raises [ValueError], since [models.Shard] declares no such
    field, and nothing is written; tokens are pairwise distinct. *)
Theorem beat_live_raises now (heartbeat : Heartbeat) (c : Coordinator) d :
  NoDup (tokens c) →
  d ∈ shards c →
  shard_id d < total_shards c →
  hb_session_id heartbeat = session_id d →
  beat now heartbeat c = (inl ValueError, c).
Proof.
  intros Htok Hd Hlt Hhb.
  destruct (find_one_live c d Htok Hd) as [k Hfind].
  assert (Hin : (shard_id d >=? total_shards c) = false)
    by (rewrite Z.geb_leb; apply Z.leb_gt; lia).
  unfold beat. by rewrite Hhb, Hfind, Hin.
Qed.

(** The records after one request were there before, field for field, or
    carry the token the request minted. *)
Lemma handle_records r (c : Coordinator) d :
  d ∈ shards (handle r c) → d ∈ shards c ∨ session_id d ∈ minted r.
Proof.
  destruct r as [now tok | now hb | resp | now tok payload]; simpl.
  - destruct (decide (count c < total_shards c)) as [Hlt|Hfull].
    + destruct (connect_below_capacity now tok c Hlt) as (i & _ & _ & Hconn).
      destruct (admission now (next_halt_time c, left_before_halt c))
        as [[[halt n] sl] bt] eqn:Hadm.
      rewrite (Hconn _ _ _ _ eq_refl). simpl.
      intros [?| ->%list_elem_of_singleton]%elem_of_app; [by left|].
      right. simpl. by left.
    + rewrite connect_full by lia. by left.
  - rewrite beat_writes_nothing. by left.
  - unfold disconnect. destruct (find_one _ c) as [[k x]|]; simpl; [|by left].
    intros ?%list_elem_of_delete_inv. by left.
  - unfold re_register. repeat case_decide; simpl; try (by left).
    intros [?| ->%list_elem_of_singleton]%elem_of_app; [by left|].
    right. simpl. by left.
Qed.

(** X9. Records are never rewritten: after any sequence of requests every
    live record either was live before the run with the very same
    [shard_id], [last_beat] and [session_id], or carries a token minted in
    the run. In particular no request refreshes the [last_beat] of a
    record. *)
Theorem serve_never_rewrites rs : ∀ (c : Coordinator) d,
  d ∈ shards (serve rs c) →
  d ∈ shards c ∨ session_id d ∈ rs ≫= minted.
Proof.
  induction rs as [|r rs IH]; intros c d Hd; simpl in *; [by left|].
  destruct (IH _ _ Hd) as [Hin | Hin].
  - destruct (handle_records r c d Hin) as [?|?]; [by left|].
    right. apply elem_of_app. by left.
  - right. apply elem_of_app. by right.
Qed.

(** ** The answer of [connect] and the window over time *)

Lemma halt_le_refl h : halt_le h h.
Proof. destruct h; simpl; [lia | done]. Qed.

Lemma halt_le_trans a b c : halt_le a b → halt_le b c → halt_le a c.
Proof. destruct a, b, c; simpl; try done; lia. Qed.

(** The admission step: the wait is 0 or 5 seconds and the record is
    stamped that much after the arrival; the window's end does not move
    back, and between 0 and 4 slots are left if there were at most 5. *)
Lemma admission_cases now h n :
  ∃ h' n' s,
    admission now (h, n) = (h', n', s, now + timedelta s)
    ∧ (s = 0 ∨ s = 5)
    ∧ halt_le h h'
    ∧ 0 ≤ n'
    ∧ (n ≤ 5 → n' ≤ 4).
Proof.
  assert (Hzero : now + timedelta 0 = now) by (unfold timedelta; lia).
  assert (Hopen : match h with None => True | Some t => t < now end →
            ∃ h' n' s, admission now (h, n) = (h', n', s, now + timedelta s)
              ∧ (s = 0 ∨ s = 5) ∧ halt_le h h' ∧ 0 ≤ n' ∧ (n ≤ 5 → n' ≤ 4)).
  { intros Hover. exists (Some (now + timedelta 5)), 4, 0.
    rewrite Hzero. split; [by apply admission_open|].
    split; [by left|]. split; [|lia].
    destruct h as [t|]; simpl in *; [unfold timedelta; lia | done]. }
  destruct h as [t|]; [|by apply Hopen].
  destruct (decide (t < now)) as [Hover|Hin]; [by apply Hopen|].
  destruct (decide (0 < n)) as [Hn|Hn].
  - exists (Some t), (n - 1), 0.
    rewrite Hzero. split; [apply admission_slot; lia|].
    split; [by left|]. split; [apply halt_le_refl|]. lia.
  - exists (Some t), 4, 5.
    split; [apply admission_throttled; lia|].
    split; [by right|]. split; [apply halt_le_refl|]. lia.
Qed.

(** X12. Every answered [connect] tells the caller to wait 0 or 5 seconds,
    never longer, and the record it appends is stamped exactly that much
    after the arrival; the answer carries the minted token and the current
    [total_shards], and the record the answer's identity. *)
Theorem connect_answer now tok (c : Coordinator) cc c' :
  connect now tok c = (inr cc, c') →
  (cc_sleep_duration cc = 0 ∨ cc_sleep_duration cc = 5)
  ∧ cc_session_id cc = tok
  ∧ cc_max_shards cc = total_shards c
  ∧ shards c' = shards c ++
      [mkShard (cc_shard_id cc) (now + timedelta (cc_sleep_duration cc)) tok
].
Proof.
  intros Hconn.
  destruct (decide (count c < total_shards c)) as [Hlt|Hfull];
    [|by rewrite connect_full in Hconn by lia].
  destruct (connect_below_capacity now tok c Hlt) as (i & _ & _ & Heq).
  destruct (admission_cases now (next_halt_time c) (left_before_halt c))
    as (h' & n' & s & Hadm & Hs & _).
  rewrite (Heq _ _ _ _ Hadm) in Hconn.
  by injection Hconn as <- <-.
Qed.

(** One request and the window. *)
Lemma handle_window r (c : Coordinator) :
  halt_le (next_halt_time c) (next_halt_time (handle r c))
  ∧ (0 ≤ left_before_halt c ≤ 5 → 0 ≤ left_before_halt (handle r c) ≤ 5).
Proof.
  destruct r as [now tok | now hb | resp | now tok payload]; simpl.
  - destruct (decide (count c < total_shards c)) as [Hlt|Hfull].
    + destruct (connect_below_capacity now tok c Hlt) as (i & _ & _ & Heq).
      destruct (admission_cases now (next_halt_time c) (left_before_halt c))
        as (h' & n' & s & Hadm & _ & Hle & Hlow & Hhigh).
      rewrite (Heq _ _ _ _ Hadm). simpl. split; [done|]. lia.
    + rewrite connect_full by lia. simpl. split; [apply halt_le_refl | done].
  - destruct (beat_frame now hb c) as (_ & _ & _ & -> & ->).
    split; [apply halt_le_refl | done].
  - unfold disconnect. destruct (find_one _ c) as [[k d]|]; simpl;
      (split; [apply halt_le_refl | done]).
  - unfold re_register. repeat case_decide; simpl;
      (split; [apply halt_le_refl | done]).
Qed.

(** X13. The slot counter stays within 0..5: started there (its initial
    value is 5), no sequence of requests takes it below 0 or above 5. *)
Theorem serve_slots_bounded rs : ∀ c : Coordinator,
  0 ≤ left_before_halt c ≤ 5 →
  0 ≤ left_before_halt (serve rs c) ≤ 5.
Proof.
  induction rs as [|r rs IH]; intros c Hc; simpl; [done|].
  by apply IH, handle_window.
Qed.

(** X14. The window's end never moves back: whatever requests are served,
    in whatever order their clock readings come, [next_halt_time] is at
    least what it was, and once set it is never unset. *)
Theorem serve_window_monotone rs : ∀ c : Coordinator,
  halt_le (next_halt_time c) (next_halt_time (serve rs c)).
Proof.
  induction rs as [|r rs IH]; intros c; simpl; [apply halt_le_refl|].
  eapply halt_le_trans; [apply handle_window | apply IH].
Qed.

(** X15. An HTTP error means nothing happened: whenever one of the four
    handlers answers with an [HTTPException], the records, the fleet size
    and the window are what they were. *)
Theorem http_error_changes_nothing now tok (heartbeat : Heartbeat)
    (resp : SessionID) (payload : Register) (c : Coordinator) status detail :
  ((connect now tok c).1 = inl (HTTPException status detail) →
     (connect now tok c).2 = c)
  ∧ ((beat now heartbeat c).1 = inl (HTTPException status detail) →
     (beat now heartbeat c).2 = c)
  ∧ ((disconnect resp c).1 = inl (HTTPException status detail) →
     (disconnect resp c).2 = c)
  ∧ ((re_register now tok payload c).1 = inl (HTTPException status detail) →
     (re_register now tok payload c).2 = c).
Proof.
  split; [|split; [|split]].
  - destruct (decide (count c < total_shards c)) as [Hlt|Hfull];
      [|by rewrite connect_full by lia].
    destruct (connect_below_capacity now tok c Hlt) as (i & _ & _ & Heq).
    destruct (admission_cases now (next_halt_time c) (left_before_halt c))
      as (h' & n' & s & Hadm & _).
    by rewrite (Heq _ _ _ _ Hadm).
  - unfold beat. destruct (find_one _ c) as [[k d]|]; [|done].
    by destruct (_ >=? _).
  - unfold disconnect. by destruct (find_one _ c) as [[k d]|].
  - unfold re_register. by repeat case_decide.
Qed.

(** ** Identities come back *)

(** In a full fleet with distinct identities in range every identity of the
    range is live. *)
Lemma full_fleet_all_live (c : Coordinator) i :
  identities_ok c →
  count c = total_shards c →
  0 ≤ i < total_shards c →
  i ∈ live_ids c.
Proof.
  intros [Hnodup Hrange] Hfull Hi.
  assert (Hsub : live_ids c ⊆+ seqZ 0 (total_shards c)).
  { apply NoDup_submseteq; [done|]. intros x Hx.
    rewrite Forall_forall in Hrange. apply elem_of_seqZ.
    specialize (Hrange x Hx). lia. }
  apply submseteq_length_Permutation in Hsub.
  - rewrite Hsub. apply elem_of_seqZ. lia.
  - rewrite length_seqZ. unfold live_ids. rewrite length_fmap.
    unfold count in Hfull. lia.
Qed.

(** X16. In a full fleet a disconnected shard's identity is the one the
    next [connect] hands out: with distinct tokens, distinct identities in
    range and as many records as [total_shards], disconnecting a record and
    connecting again yields that record's identity. *)
Theorem full_fleet_reuses_identity now tok (c : Coordinator) d :
  NoDup (tokens c) →
  NoDup (live_ids c) →
  Forall (λ i, 0 ≤ i < total_shards c) (live_ids c) →
  count c = total_shards c →
  d ∈ shards c →
  identity_of (connect now tok (disconnect (mkSessionID (session_id d)) c).2).1
    = Some (shard_id d).
Proof.
  intros Htok Hnodup Hrange Hfull Hd.
  destruct (disconnect_live c d Htok Hd) as (k & Hk & ->). simpl.
  set (c1 := with_shards c (delete k (shards c))).
  assert (Hlen : (k < length (shards c))%nat) by (by eapply lookup_lt_Some).
  assert (Hlt : count c1 < total_shards c1).
  { unfold count, c1 in *. simpl. rewrite length_delete by eauto. lia. }
  destruct (connect_below_capacity now tok c1 Hlt)
    as (i & _ & (Hi & Hfree & _) & Heq).
  destruct (admission_cases now (next_halt_time c1) (left_before_halt c1))
    as (h' & n' & s & Hadm & _).
  rewrite (Heq _ _ _ _ Hadm). simpl. f_equal.
  destruct (decide (i = shard_id d)) as [|Hne]; [done|].
  exfalso. apply Hfree.
  assert (Hlive : i ∈ live_ids c) by (by apply full_fleet_all_live).
  unfold live_ids, c1 in *. simpl.
  rewrite list_fmap_delete, delete_take_drop.
  assert (Hmid : (shard_id <$> shards c) !! k = Some (shard_id d))
    by (by rewrite list_lookup_fmap, Hk).
  rewrite <-(take_drop_middle _ k _ Hmid) in Hlive.
  apply elem_of_app in Hlive as [Hl | Hr]; apply elem_of_app; [by left|].
  apply elem_of_cons in Hr as [-> | Hr]; [done | by right].
Qed.

(** X17. An identity is re-registered once: after a successful
    [re_register] a second one for the same identity, whatever total it
    claims, is answered 409 Shard Not Available and changes nothing. *)
Theorem re_register_once now tok now' tok' (payload payload' : Register)
    (c : Coordinator) :
  reg_shard_id payload ∈ get_missing_shards c →
  reg_max_shards payload = total_shards c →
  reg_shard_id payload' = reg_shard_id payload →
  re_register now' tok' payload' (re_register now tok payload c).2
    = (inl IdentityNotAvailable, (re_register now tok payload c).2).
Proof.
  intros Hin Htotal Hsame.
  set (c1 := (re_register now tok payload c).2).
  assert (Hlive : reg_shard_id payload ∈ live_ids c1).
  { unfold c1, re_register.
    rewrite decide_False by (intros Hnot; by apply Hnot).
    rewrite decide_False by (intros Hne; by apply Hne).
    unfold live_ids. simpl. rewrite fmap_app. apply elem_of_app. right.
    by left. }
  unfold re_register at 1. rewrite Hsame.
  rewrite decide_True; [done|].
  rewrite elem_of_missing. tauto.
Qed.

End Shardman.

(** * The claims on concrete fleets *)

(** The allocator example of the specification: live identities 0, 2, 3 out
    of five give identity 1. *)
Example allocate_023 : get_shard_id fleet_023 = inr (Some 1).
Proof. reflexivity. Qed.

Example connect_023 :
  (connect 7 "D" fleet_023).1 = inr (mkConnectConfirmed 1 5 "D" 0).
Proof. reflexivity. Qed.

Lemma connect_fleet_full_witness :
  connect 7 "D" fleet_full = (inl FleetFull, fleet_full)
  ∧ (connect 7 "D" fleet_023).1 ≠ inl FleetFull.
Proof.
  split.
  - apply (proj1 (connect_fleet_full 7 "D" fleet_full)). vm_compute. discriminate.
  - apply (proj2 (connect_fleet_full 7 "D" fleet_023)). reflexivity.
Defined.

Lemma connect_lowest_free_witness :
  count fleet_023 < total_shards fleet_023
  ∧ ∃ cc c',
      connect 7 "D" fleet_023 = (inr cc, c')
      ∧ get_shard_id fleet_023 = inr (Some (cc_shard_id cc))
      ∧ 0 ≤ cc_shard_id cc < total_shards fleet_023
      ∧ (cc_shard_id cc ∉ live_ids fleet_023)
      ∧ (∀ j, 0 ≤ j < cc_shard_id cc → j ∈ live_ids fleet_023)
      ∧ live_ids c' = live_ids fleet_023 ++ [cc_shard_id cc].
Proof.
  split; [reflexivity|].
  apply (connect_lowest_free 7 "D" fleet_023). reflexivity.
Defined.

Lemma sixth_call_waits_witness :
  window_over (idle None 5) 0
  ∧ ∃ oks cc6 d6 c',
      connects ((0, "O") :: [(1, "P"); (2, "Q"); (3, "R"); (4, "S")] ++ [(timedelta 5, "T")])
               (idle None 5)
        = ((inr <$> oks) ++ [inr cc6], c')
      ∧ Z.of_nat (length oks) = bucket_size
      ∧ Forall (λ cc, cc_sleep_duration cc = 0) oks
      ∧ cc_sleep_duration cc6 = window_length
      ∧ last (shards c') = Some d6
      ∧ session_id d6 = "T"
      ∧ shard_id d6 = cc_shard_id cc6
      ∧ last_beat d6 = timedelta 5 + timedelta window_length.
Proof.
  split; [exact I|].
  apply (sixth_call_waits (idle None 5) 0 "O"
           [(1, "P"); (2, "Q"); (3, "R"); (4, "S")] (timedelta 5) "T").
  - exact I.
  - reflexivity.
  - repeat constructor; vm_compute; discriminate.
  - vm_compute; discriminate.
  - vm_compute; discriminate.
Defined.

(** The claim of the specification on a throttled call does not hold: in a
    window that ends at second 10 with no slot left, the call of second 6 is
    throttled and leaves four slots, not five; of the next five calls of the
    window the fifth is throttled again. *)
Lemma throttled_call_counterexample :
  next_halt_time used_up = Some (timedelta 10)
  ∧ left_before_halt used_up ≤ 0
  ∧ sleep_of (connect (timedelta 6) "O" used_up).1 = Some window_length
  ∧ left_before_halt (connect (timedelta 6) "O" used_up).2 = 4
  ∧ left_before_halt (connect (timedelta 6) "O" used_up).2 ≠ bucket_size
  ∧ sleep_of <$> (connects burst (connect (timedelta 6) "O" used_up).2).1
      = [Some 0; Some 0; Some 0; Some 0; Some window_length].
Proof.
  split; [reflexivity|]. split; [vm_compute; discriminate|].
  split; [reflexivity|]. split; [reflexivity|].
  split; [vm_compute; discriminate|]. reflexivity.
Qed.

Lemma throttled_call_takes_slot_witness :
  next_halt_time used_up = Some (timedelta 10)
  ∧ left_before_halt used_up ≤ 0
  ∧ ∃ cc c1 oks c2,
      connect (timedelta 6) "O" used_up = (inr cc, c1)
      ∧ cc_sleep_duration cc = window_length
      ∧ left_before_halt c1 = bucket_size - 1
      ∧ next_halt_time c1 = Some (timedelta 10)
      ∧ connects [(timedelta 6, "P"); (timedelta 7, "Q"); (timedelta 8, "R");
                  (timedelta 10, "S")] c1 = (inr <$> oks, c2)
      ∧ length oks = 4%nat
      ∧ Forall (λ cc, cc_sleep_duration cc = 0) oks
      ∧ left_before_halt c2 = 0.
Proof.
  split; [reflexivity|]. split; [vm_compute; discriminate|].
  apply (throttled_call_takes_slot used_up (timedelta 10) (timedelta 6) "O"
           [(timedelta 6, "P"); (timedelta 7, "Q"); (timedelta 8, "R");
            (timedelta 10, "S")]).
  - reflexivity.
  - vm_compute; discriminate.
  - vm_compute; discriminate.
  - reflexivity.
  - repeat constructor; vm_compute; discriminate.
  - vm_compute; discriminate.
Defined.

(** The claim of the specification on the start of a window does not hold
    at the window's end itself: a call that arrives exactly at
    [next_halt_time] stays in the old window (here without a slot, so it is
    throttled) and the window's end is not moved. *)
Lemma window_end_exact_counterexample :
  next_halt_time used_up = Some (timedelta 10)
  ∧ next_halt_time (connect (timedelta 10) "O" used_up).2
      = Some (timedelta 10)
  ∧ next_halt_time (connect (timedelta 10) "O" used_up).2
      ≠ Some (timedelta 10 + timedelta window_length)
  ∧ sleep_of (connect (timedelta 10) "O" used_up).1 = Some 5
  ∧ sleep_of (connect (timedelta 10) "O" used_up).1 ≠ Some 0.
Proof.
  split; [reflexivity|]. split; [reflexivity|].
  split; [vm_compute; discriminate|].
  split; [reflexivity|]. vm_compute; discriminate.
Qed.

(** One microsecond after the window's end a new window starts; at the
    window's end itself the old window, here without a slot, still
    applies. *)
Lemma new_window_when_over_witness :
  count used_up < total_shards used_up
  ∧ window_over used_up (timedelta 10 + 1)
  ∧ (∃ cc d c',
       connect (timedelta 10 + 1) "O" used_up = (inr cc, c')
       ∧ cc_sleep_duration cc = 0
       ∧ next_halt_time c' = Some (timedelta 10 + 1 + timedelta window_length)
       ∧ left_before_halt c' = bucket_size - 1
       ∧ last (shards c') = Some d
       ∧ session_id d = "O"
       ∧ last_beat d = timedelta 10 + 1)
  ∧ (∃ cc c',
       connect (timedelta 10) "O" used_up = (inr cc, c')
       ∧ next_halt_time c' = Some (timedelta 10)
       ∧ (0 < left_before_halt used_up →
            cc_sleep_duration cc = 0
            ∧ left_before_halt c' = left_before_halt used_up - 1)
       ∧ (left_before_halt used_up ≤ 0 →
            cc_sleep_duration cc = window_length
            ∧ left_before_halt c' = bucket_size - 1)).
Proof.
  split; [reflexivity|]. split; [reflexivity|]. split.
  - apply (proj1 (new_window_when_over used_up (timedelta 10 + 1) "O"
                    ltac:(reflexivity))).
    reflexivity.
  - apply (proj2 (new_window_when_over used_up (timedelta 10) "O"
                    ltac:(reflexivity)) (timedelta 10));
      [reflexivity | vm_compute; discriminate].
Defined.

(** The re-registration example of the specification: five identities, of
    which 0, 1 and 3 are live. *)
Lemma re_register_rules_witness :
  re_register 42 "N" (mkRegister 1 5 true) fleet_013
    = (inl IdentityNotAvailable, fleet_013)
  ∧ re_register 42 "N" (mkRegister 1 6 true) fleet_013
    = (inl IdentityNotAvailable, fleet_013)
  ∧ re_register 42 "N" (mkRegister 2 6 true) fleet_013
    = (inl FleetSizeMismatch, fleet_013)
  ∧ ∃ cc c', re_register 42 "N" (mkRegister 2 5 true) fleet_013 = (inr cc, c').
Proof.
  assert (Hmissing : 2 ∈ get_missing_shards fleet_013).
  { apply (bool_decide_unpack _). vm_compute. exact I. }
  split.
  { apply (proj1 (re_register_rules 42 "N" (mkRegister 1 5 true) fleet_013)).
    apply (bool_decide_unpack _). vm_compute. exact I. }
  split.
  { apply (proj1 (proj2 (re_register_rules 42 "N" (mkRegister 1 6 true) fleet_013))).
    apply (bool_decide_unpack _). vm_compute. exact I. }
  split.
  { apply (proj1 (proj2 (proj2 (re_register_rules 42 "N" (mkRegister 2 6 true) fleet_013))));
      [exact Hmissing | vm_compute; discriminate]. }
  apply (proj2 (proj2 (proj2 (re_register_rules 42 "N" (mkRegister 2 5 true) fleet_013))));
    [exact Hmissing | reflexivity].
Defined.

Lemma re_register_fresh_record_witness :
  2 ∈ get_missing_shards fleet_013
  ∧ re_register 42 "N" (mkRegister 2 5 true) fleet_013 =
      (inr (mkConnectConfirmed 2 5 "N" 0),
       mkCoordinator
         [sample_shard 0 "A"; sample_shard 1 "B"; sample_shard 3 "C";
          mkShard 2 42 "N"] 5 None 5).
Proof.
  assert (Hmissing : 2 ∈ get_missing_shards fleet_013).
  { apply (bool_decide_unpack _). vm_compute. exact I. }
  split; [exact Hmissing|].
  apply (re_register_fresh_record 42 "N" (mkRegister 2 5 true) fleet_013);
    [exact Hmissing | reflexivity].
Defined.

Lemma unknown_session_not_found_witness :
  beat 42 (mkHeartbeat "Z" (Some 3) (Some 17) (Some "eu")) fleet_013
    = (inl SessionNotFound, fleet_013)
  ∧ disconnect (mkSessionID "Z") fleet_013 = (inl SessionNotFound, fleet_013).
Proof.
  apply (unknown_session_not_found 42
           (mkHeartbeat "Z" (Some 3) (Some 17) (Some "eu")) fleet_013).
  apply Forall_forall. simpl. repeat constructor; discriminate.
Defined.


(** Each heartbeat of the witness is for the live session B and raises on
    line 122; the collection is left as it was. *)
Example heartbeat_raises :
  beat 42 (mkHeartbeat "B" (Some 3) (Some 17) (Some "eu")) fleet_013
    = (inl ValueError, fleet_013).
Proof. reflexivity. Qed.

Lemma beat_out_of_range_witness :
  total_shards fleet_shrunk ≤ shard_id (sample_shard 3 "C")
  ∧ beat 42 (mkHeartbeat "C" (Some 3) (Some 17) (Some "eu")) fleet_shrunk
      = (inl (HTTPException 401 "No Shards Available"), fleet_shrunk).
Proof.
  split; [vm_compute; discriminate|].
  apply (beat_out_of_range 42 (mkHeartbeat "C" (Some 3) (Some 17) (Some "eu"))
           fleet_shrunk (sample_shard 3 "C")).
  - apply (bool_decide_unpack _). vm_compute. exact I.
  - simpl. repeat constructor.
  - vm_compute; discriminate.
  - reflexivity.
Defined.

(** * The further properties on concrete fleets *)

(** What [sample_run] does to [fleet_013]: identities 2 and 4 are handed
    out, 0 comes back through [re_register], and the last [connect] finds
    the fleet full. *)
Example sample_run_identities :
  live_ids (serve (@sample_run Z string) fleet_013) = [1; 3; 2; 0; 4]
  ∧ tokens (serve (@sample_run Z string) fleet_013) = ["B"; "C"; "D"; "E"; "F"].
Proof. split; reflexivity. Qed.

Lemma serve_keeps_identities_witness :
  NoDup (live_ids fleet_013)
  ∧ NoDup (live_ids (serve (@sample_run Z string) fleet_013))
  ∧ Forall (λ i, 0 ≤ i < total_shards fleet_013)
           (live_ids (serve (@sample_run Z string) fleet_013)).
Proof.
  split; [apply (bool_decide_unpack _); vm_compute; exact I|].
  apply (serve_keeps_identities sample_run fleet_013);
    apply (bool_decide_unpack _); vm_compute; exact I.
Defined.

Lemma serve_never_overfills_witness :
  0 ≤ total_shards fleet_013
  ∧ count (serve (@sample_run Z string) fleet_013) ≤ total_shards fleet_013.
Proof.
  split; [vm_compute; discriminate|].
  apply (serve_never_overfills sample_run fleet_013);
    [vm_compute; discriminate | apply (bool_decide_unpack _); vm_compute; exact I ..].
Defined.

Lemma serve_keeps_tokens_unique_witness :
  NoDup (tokens fleet_013 ++ (@sample_run Z string ≫= minted))
  ∧ NoDup (tokens (serve (@sample_run Z string) fleet_013)).
Proof.
  split; [apply (bool_decide_unpack _); vm_compute; exact I|].
  apply (serve_keeps_tokens_unique sample_run fleet_013).
  apply (bool_decide_unpack _); vm_compute; exact I.
Defined.

(** Five calls on a fleet with two free identities: 1 and 4 are handed
    out, three calls find the fleet full. *)
Lemma connects_distinct_identities_witness :
  NoDup (live_ids fleet_023)
  ∧ live_ids (connects burst fleet_023).2
      = live_ids fleet_023
          ++ omap identity_of (connects burst fleet_023).1
  ∧ NoDup (live_ids fleet_023
             ++ omap identity_of (connects burst fleet_023).1).
Proof.
  split; [apply (bool_decide_unpack _); vm_compute; exact I|].
  apply (connects_distinct_identities burst fleet_023).
  apply (bool_decide_unpack _); vm_compute; exact I.
Defined.

Example burst_identities :
  omap identity_of (connects burst fleet_023).1 = [1; 4].
Proof. reflexivity. Qed.

Lemma connect_then_disconnect_witness :
  ("D" ∉ tokens fleet_023)
  ∧ (disconnect (mkSessionID "D") (connect 7 "D" fleet_023).2).1 = inr ()
  ∧ shards (disconnect (mkSessionID "D") (connect 7 "D" fleet_023).2).2
      = shards fleet_023.
Proof.
  split; [apply (bool_decide_unpack _); vm_compute; exact I|].
  apply (connect_then_disconnect 7 "D" fleet_023);
    [reflexivity | apply (bool_decide_unpack _); vm_compute; exact I].
Defined.

Lemma disconnect_frees_identity_witness :
  (disconnect (mkSessionID "B") fleet_013).1 = inr ()
  ∧ 1 ∈ get_missing_shards (disconnect (mkSessionID "B") fleet_013).2
  ∧ (re_register 42 "N" (mkRegister 1 5 true)
       (disconnect (mkSessionID "B") fleet_013).2).1
      = inr (mkConnectConfirmed 1 5 "N" 0).
Proof.
  apply (disconnect_frees_identity 42 "N" true fleet_013 (sample_shard 1 "B")).
  - apply (bool_decide_unpack _); vm_compute; exact I.
  - apply (bool_decide_unpack _); vm_compute; exact I.
  - simpl. repeat constructor.
  - simpl. lia.
Defined.

Lemma disconnect_is_final_witness :
  ("B" ∉ [Connect (timedelta 1) "D";
          Beat (timedelta 2) (mkHeartbeat "B" (Some 3) (Some 17) (Some "eu"));
          ReRegister (timedelta 3) "E" (mkRegister 1 5 true)] ≫= minted)
  ∧ (disconnect (mkSessionID "B") fleet_013).1 = inr ()
  ∧ (beat 42 (mkHeartbeat "B" (Some 3) (Some 17) (Some "eu"))
       (serve [Connect (timedelta 1) "D";
               Beat (timedelta 2) (mkHeartbeat "B" (Some 3) (Some 17) (Some "eu"));
               ReRegister (timedelta 3) "E" (mkRegister 1 5 true)]
              (disconnect (mkSessionID "B") fleet_013).2)).1
      = inl SessionNotFound
  ∧ (disconnect (mkSessionID "B")
       (serve [Connect (timedelta 1) "D";
               Beat (timedelta 2) (mkHeartbeat "B" (Some 3) (Some 17) (Some "eu"));
               ReRegister (timedelta 3) "E" (mkRegister 1 5 true)]
              (disconnect (mkSessionID "B") fleet_013).2)).1
      = inl SessionNotFound.
Proof.
  split; [apply (bool_decide_unpack _); vm_compute; exact I|].
  apply (disconnect_is_final 42 (mkHeartbeat "B" (Some 3) (Some 17) (Some "eu"))
           fleet_013 (sample_shard 1 "B")
           [Connect (timedelta 1) "D";
            Beat (timedelta 2) (mkHeartbeat "B" (Some 3) (Some 17) (Some "eu"));
            ReRegister (timedelta 3) "E" (mkRegister 1 5 true)]).
  - apply (bool_decide_unpack _); vm_compute; exact I.
  - simpl. repeat constructor.
  - reflexivity.
  - apply (bool_decide_unpack _); vm_compute; exact I.
Defined.

Lemma beat_live_raises_witness :
  shard_id (sample_shard 1 "B") < total_shards fleet_013
  ∧ beat 42 (mkHeartbeat "B" (Some 3) (Some 17) (Some "eu")) fleet_013
      = (inl ValueError, fleet_013).
Proof.
  split; [reflexivity|].
  apply (beat_live_raises 42 (mkHeartbeat "B" (Some 3) (Some 17) (Some "eu"))
           fleet_013 (sample_shard 1 "B")).
  - apply (bool_decide_unpack _); vm_compute; exact I.
  - simpl. repeat constructor.
  - reflexivity.
  - reflexivity.
Defined.

(** Record B is beaten in [sample_run] and is afterwards what it was. *)
Lemma serve_never_rewrites_witness :
  sample_shard 1 "B" ∈ shards (serve (@sample_run Z string) fleet_013)
  ∧ (sample_shard 1 "B" ∈ shards fleet_013
     ∨ session_id (sample_shard 1 "B") ∈ @sample_run Z string ≫= minted).
Proof.
  assert (Hlive : sample_shard 1 "B" ∈ shards (serve (@sample_run Z string) fleet_013)).
  { vm_compute. repeat constructor. }
  split; [exact Hlive|].
  apply (serve_never_rewrites sample_run fleet_013 (sample_shard 1 "B")).
  exact Hlive.
Defined.

(** The throttled call of second 6 on [used_up]: told to wait 5 seconds,
    its record stamped second 11. *)
Lemma connect_answer_witness :
  connect (timedelta 6) "O" used_up
    = (inr (mkConnectConfirmed 0 16 "O" 5),
       mkCoordinator [mkShard 0 (timedelta 11) "O"]
                     16 (Some (timedelta 10)) 4)
  ∧ (5 = 0 ∨ 5 = 5)
  ∧ "O" = "O"
  ∧ 16 = total_shards used_up
  ∧ [mkShard 0 (timedelta 11) "O"]
      = shards used_up
          ++ [mkShard 0 (timedelta 6 + timedelta 5) "O"].
Proof.
  split; [reflexivity|].
  apply (connect_answer (timedelta 6) "O" used_up (mkConnectConfirmed 0 16 "O" 5)
           (mkCoordinator [mkShard 0 (timedelta 11) "O"]
                          16 (Some (timedelta 10)) 4)).
  reflexivity.
Defined.

Lemma serve_slots_bounded_witness :
  0 ≤ left_before_halt (serve (@sample_run Z string) fleet_013) ≤ 5.
Proof.
  apply (serve_slots_bounded sample_run fleet_013). simpl. lia.
Defined.

Lemma http_error_changes_nothing_witness :
  (connect 7 "D" fleet_full).2 = fleet_full
  ∧ (beat 7 (mkHeartbeat "C" (Some 3) (Some 17) (Some "eu")) fleet_shrunk).2 = fleet_shrunk
  ∧ (disconnect (mkSessionID "Z") fleet_013).2 = fleet_013
  ∧ (re_register 7 "D" (mkRegister 2 6 true) fleet_013).2 = fleet_013.
Proof.
  split; [|split; [|split]].
  - apply (proj1 (http_error_changes_nothing 7 "D" (mkHeartbeat "C" (Some 3) (Some 17) (Some "eu"))
                    (mkSessionID "Z") (mkRegister 2 6 true) fleet_full
                    401 "No Shards Available")).
    reflexivity.
  - apply (proj1 (proj2 (http_error_changes_nothing 7 "D"
                    (mkHeartbeat "C" (Some 3) (Some 17) (Some "eu"))
                    (mkSessionID "Z") (mkRegister 2 6 true) fleet_shrunk
                    401 "No Shards Available"))).
    reflexivity.
  - apply (proj1 (proj2 (proj2 (http_error_changes_nothing 7 "D"
                    (mkHeartbeat "C" (Some 3) (Some 17) (Some "eu"))
                    (mkSessionID "Z") (mkRegister 2 6 true) fleet_013
                    404 "Session Not Found")))).
    reflexivity.
  - apply (proj2 (proj2 (proj2 (http_error_changes_nothing 7 "D"
                    (mkHeartbeat "C" (Some 3) (Some 17) (Some "eu"))
                    (mkSessionID "Z") (mkRegister 2 6 true) fleet_013
                    412 "Max Shards Mismatch")))).
    reflexivity.
Defined.

Lemma full_fleet_reuses_identity_witness :
  count fleet_full = total_shards fleet_full
  ∧ identity_of (connect 7 "D" (disconnect (mkSessionID "B") fleet_full).2).1
      = Some 1.
Proof.
  split; [reflexivity|].
  apply (full_fleet_reuses_identity 7 "D" fleet_full (sample_shard 1 "B")).
  - apply (bool_decide_unpack _); vm_compute; exact I.
  - apply (bool_decide_unpack _); vm_compute; exact I.
  - apply (bool_decide_unpack _); vm_compute; exact I.
  - reflexivity.
  - simpl. repeat constructor.
Defined.

Lemma re_register_once_witness :
  2 ∈ get_missing_shards fleet_013
  ∧ re_register 43 "M" (mkRegister 2 6 false)
      (re_register 42 "N" (mkRegister 2 5 true) fleet_013).2
    = (inl IdentityNotAvailable,
       (re_register 42 "N" (mkRegister 2 5 true) fleet_013).2).
Proof.
  assert (Hmissing : 2 ∈ get_missing_shards fleet_013).
  { apply (bool_decide_unpack _). vm_compute. exact I. }
  split; [exact Hmissing|].
  apply (re_register_once 42 "N" 43 "M" (mkRegister 2 5 true) (mkRegister 2 6 false)
           fleet_013); [exact Hmissing | reflexivity | reflexivity].
Defined.
